(** * aws_s3_upload.py: key mapping, metadata, file filter and upload scheduler

    A shallow embedding of [src/aws_s3_upload.py].  Python [str] values are
    Rocq strings holding the UTF-8 bytes; every character the program tests
    for ('/', '.', backslash, the ASCII letters of the extension table) is
    ASCII, and an ASCII byte never occurs inside a multi-byte UTF-8 sequence,
    so the byte-wise operations below agree with the code-point-wise ones of
    Python.  [pathlib.Path] is the POSIX flavour. *)

From Stdlib Require Import ZArith Ascii.
From stdpp Require Import gmap strings list relations.

(** ** Python string methods used by the program *)

Module PyStr.

Definition singleton (c : ascii) : string := String c "".

(** [s.rstrip(c)]: drop every trailing [c]. *)
Fixpoint rstrip (c : ascii) (s : string) : string :=
  match s with
  | "" => ""
  | String a s' =>
      match rstrip c s' with
      | "" => if Ascii.eqb a c then "" else String a ""
      | r => String a r
      end
  end.

(** [s.lstrip(c)]: drop every leading [c]. *)
Fixpoint lstrip (c : ascii) (s : string) : string :=
  match s with
  | "" => ""
  | String a s' => if Ascii.eqb a c then lstrip c s' else s
  end.

(** [s.startswith(c)] for a one-character [c]. *)
Definition startswith (c : ascii) (s : string) : bool :=
  match s with
  | "" => false
  | String a _ => Ascii.eqb a c
  end.

(** [s.endswith(c)] for a one-character [c]. *)
Fixpoint endswith (c : ascii) (s : string) : bool :=
  match s with
  | "" => false
  | String a "" => Ascii.eqb a c
  | String _ s' => endswith c s'
  end.

(** [s.replace(a, b)] for one-character [a] and [b]. *)
Fixpoint replace (a b : ascii) (s : string) : string :=
  match s with
  | "" => ""
  | String x s' => String (if Ascii.eqb x a then b else x) (replace a b s')
  end.

(** [c in s]. *)
Fixpoint contains (c : ascii) (s : string) : bool :=
  match s with
  | "" => false
  | String a s' => Ascii.eqb a c || contains c s'
  end.

(** [s.split(c)]: never empty, [""] splits to [[""]]. *)
Fixpoint split (c : ascii) (s : string) : list string :=
  match s with
  | "" => [""]
  | String a s' =>
      if Ascii.eqb a c then "" :: split c s'
      else match split c s' with
           | [] => [String a ""]
           | w :: ws => String a w :: ws
           end
  end.

(** [sep.join(l)]. *)
Fixpoint join (sep : string) (l : list string) : string :=
  match l with
  | [] => ""
  | [x] => x
  | x :: l' => x +:+ sep +:+ join sep l'
  end.

(** [s.rfind(c)], with [None] for Python's -1. *)
Fixpoint rfind (c : ascii) (s : string) : option nat :=
  match s with
  | "" => None
  | String a s' =>
      match rfind c s' with
      | Some i => Some (S i)
      | None => if Ascii.eqb a c then Some 0 else None
      end
  end.

(** [s[i:]]. *)
Fixpoint drop (i : nat) (s : string) : string :=
  match i, s with
  | 0, _ => s
  | S i', String _ s' => drop i' s'
  | S _, "" => ""
  end.

Definition lower_ascii (a : ascii) : ascii :=
  let n := nat_of_ascii a in
  if (65 <=? n)%nat && (n <=? 90)%nat then ascii_of_nat (n + 32) else a.

(** [s.lower()].  Only 'A'..'Z' are mapped.  Python also lowers non-ASCII
    letters; each of those lowers to a string that still holds a non-ASCII
    character, except U+212A (Kelvin sign) which lowers to 'k'.  The
    extension table of [get_file_headers] has ASCII keys only, none with a
    'k', so the table lookup, the only use of [lower], is the same. *)
Fixpoint lower (s : string) : string :=
  match s with
  | "" => ""
  | String a s' => String (lower_ascii a) (lower s')
  end.

End PyStr.

(** ** [pathlib.PurePosixPath] *)

(** A parsed path: [root] is "", "/" or "//" and [parts] are the components
    after it (pathlib keeps the root as the first element of [_parts]; here it
    is kept apart). *)
Record Path := mkPath { root : string; parts : list string }.

Global Instance Path_eq_dec : EqDecision Path.
Proof. solve_decision. Defined.

Module Pathlib.

(** [_PosixFlavour.splitroot]. *)
Definition splitroot (part : string) : string * string :=
  if PyStr.startswith "/"%char part then
    let stripped := PyStr.lstrip "/"%char part in
    if (String.length part - String.length stripped =? 2)%nat
    then ("//", stripped) else ("/", stripped)
  else ("", part).

Definition is_component (x : string) : bool :=
  negb (String.eqb x "") && negb (String.eqb x ".").

(** [Path(s)]: [parse_parts] on one argument; empty and "." components
    are dropped. *)
Definition of_str (s : string) : Path :=
  let '(r, rel) := splitroot s in
  mkPath r (filter (fun x => Is_true (is_component x)) (PyStr.split "/"%char rel)).

(** [str(p)]. *)
Definition str (p : Path) : string :=
  match root p, parts p with
  | "", [] => "."
  | r, ps => r +:+ PyStr.join "/" ps
  end.

(** [p.name]: the last component, "" when there is none. *)
Definition name (p : Path) : string := List.last (parts p) "".

(** [p.suffix]: from the last dot of the name, unless that dot is the
    first or the last character. *)
Definition suffix (p : Path) : string :=
  let n := name p in
  match PyStr.rfind "."%char n with
  | Some i =>
      if (0 <? i)%nat && (i <? String.length n - 1)%nat then PyStr.drop i n else ""
  | None => ""
  end.

(** [p._make_child_relpath(n)], how [rglob] builds the paths it yields. *)
Definition child (p : Path) (n : string) : Path :=
  mkPath (root p) (parts p ++ [n]).

Definition descend (p : Path) (rel : list string) : Path :=
  mkPath (root p) (parts p ++ rel).

Fixpoint strip_prefix (pre l : list string) : option (list string) :=
  match pre, l with
  | [], _ => Some l
  | x :: pre', y :: l' => if String.eqb x y then strip_prefix pre' l' else None
  | _ :: _, [] => None
  end.

(** [p.relative_to(base)]; [None] is the [ValueError]. *)
Definition relative_to (p base : Path) : option Path :=
  if String.eqb (root p) (root base) then
    mkPath "" <$> strip_prefix (parts base) (parts p)
  else None.

End Pathlib.

(** ** The local file system *)

(** What the program can observe of a directory entry: [File] is what
    [is_file()] accepts; [Dir] is a directory that [rglob] descends into, its
    entries in [scandir] order; [Other] is anything else (socket, FIFO,
    device, dangling link, or a link to a directory, which [is_file()] rejects
    and [rglob] does not descend into). *)
#[local] Set Warnings "-register-all".

Inductive node :=
| File
| Other
| Dir (entries : list (string * node)).

Definition is_file (t : node) : bool :=
  match t with File => true | _ => false end.

Definition is_dir (t : node) : bool :=
  match t with Dir _ => true | _ => false end.

(** [dir_path.rglob('*')]: the entries of the directory itself, then those of
    each sub-directory in turn (the order of [_RecursiveWildcardSelector];
    no statement below depends on it).  Dot files are matched too. *)
Fixpoint rglob (p : Path) (t : node) : list (Path * node) :=
  match t with
  | Dir es =>
      map (λ e, (Pathlib.child p e.1, e.2)) es ++
      (fix below (es : list (string * node)) : list (Path * node) :=
         match es with
         | [] => []
         | (n, c) :: es' => rglob (Pathlib.child p n) c ++ below es'
         end) es
  | _ => []
  end.

(** The entry reached from [t] by the components [rel]. *)
Fixpoint walk (rel : list string) (t : node) : option node :=
  match rel with
  | [] => Some t
  | n :: rel' =>
      match t with
      | Dir es => c ← snd <$> List.find (λ e, String.eqb e.1 n) es; walk rel' c
      | _ => None
      end
  end.

(** No directory lists a name twice. *)
Fixpoint wf_node (t : node) : bool :=
  match t with
  | Dir es =>
      bool_decide (NoDup es.*1) &&
      (fix all (es : list (string * node)) : bool :=
         match es with
         | [] => true
         | (_, c) :: es' => wf_node c && all es'
         end) es
  | _ => true
  end.

(** ** Output, storage client and the uploader object *)

Definition bucket_name : string := "image-browser".

(** One constructor per [print] of the program, carrying the values it
    interpolates, and one for the storage call.  The elapsed time itself is
    wall-clock and is left out of [PrintElapsed]. *)
Inductive event :=
| CallUploadFile (filename bucket key : string) (extra_args : gmap string string)
| PrintUploaded (count : nat) (name key : string)
| PrintUploadFailed (count : nat) (name err : string)
| PrintSourceMissing (src : Path)
| PrintUnsupported (src : Path)
| PrintError (err : string)
| PrintElapsed
| PrintExcluded (file : Path)
| PrintDotWarning (file : Path)
| PrintUploading (file : Path) (key : string)
| PrintFileError (file : Path) (err : string)
| PrintDirectory (dir : Path) (dst : string) (include_root : bool) (workers : Z)
| PrintExcludedCount (n : nat)
| PrintWarnings (files : list Path)
| PrintTotal (n : nat)
| PrintNothingToUpload
| PrintConcurrentMode
| PrintTaskError (file : Path) (err : string)
| PrintSummary (uploaded failed : nat).

Global Instance event_eq_dec : EqDecision event.
Proof. solve_decision. Defined.

Definition is_call (e : event) : bool :=
  match e with CallUploadFile _ _ _ _ => true | _ => false end.

(** The fields of an [AsyncS3Uploader] that the methods read or write. *)
Record uploader := mkUploader {
  workers : Z;
  uploaded_count : nat;
  failed_count : nat
}.

Definition task : Type := Path * string.

(** ** A state, output and exception monad for the methods *)

Inductive result (A : Type) :=
| Return (a : A)
| Raise (err : string).
Arguments Return {A} a.
Arguments Raise {A} err.

Definition M (A : Type) : Type := uploader → result A * uploader * list event.

Definition raise {A} (err : string) : M A := λ u, (Raise err, u, []).

Global Instance M_ret : MRet M := λ A a u, (Return a, u, []).

Global Instance M_bind : MBind M := λ A B k m u,
  match m u with
  | (Return a, u1, out1) => let '(r, u2, out2) := k a u1 in (r, u2, out1 ++ out2)
  | (Raise err, u1, out1) => (Raise err, u1, out1)
  end.

Definition print (e : event) : M unit := λ u, (Return (), u, [e]).

Definition get {A} (f : uploader → A) : M A := λ u, (Return (f u), u, []).

(** [try: m  except Exception as e: h e]. *)
Definition try_except {A} (m : M A) (h : string → M A) : M A := λ u,
  match m u with
  | (Return a, u1, out1) => (Return a, u1, out1)
  | (Raise err, u1, out1) => let '(r, u2, out2) := h err u1 in (r, u2, out1 ++ out2)
  end.

(** [try: m  finally: f]: [f] runs on both exits and the outcome of [m]
    stands ([f] does not raise here). *)
Definition try_finally {A} (m : M A) (f : M unit) : M A := λ u,
  let '(r, u1, out1) := m u in
  let '(_, u2, out2) := f u1 in (r, u2, out1 ++ out2).

(** [self.uploaded_count += 1], giving the new value. *)
Definition incr_uploaded : M nat := λ u,
  (Return (S (uploaded_count u)),
   mkUploader (workers u) (S (uploaded_count u)) (failed_count u), []).

(** [self.failed_count += 1], giving the new value. *)
Definition incr_failed : M nat := λ u,
  (Return (S (failed_count u)),
   mkUploader (workers u) (uploaded_count u) (S (failed_count u)), []).

(** ** Metadata resolver *)

Definition content_types : gmap string string :=
  list_to_map [
    (".html", "text/html");
    (".css", "text/css");
    (".js", "application/javascript");
    (".json", "application/json");
    (".png", "image/png");
    (".jpg", "image/jpeg");
    (".jpeg", "image/jpeg");
    (".gif", "image/gif");
    (".svg", "image/svg+xml");
    (".ico", "image/x-icon");
    (".webp", "image/webp");
    (".txt", "text/plain");
    (".md", "text/markdown");
    (".xml", "application/xml");
    (".pdf", "application/pdf");
    (".zip", "application/zip");
    (".woff", "font/woff");
    (".woff2", "font/woff2");
    (".ttf", "font/ttf");
    (".eot", "application/vnd.ms-fontobject")
  ].

(** [AsyncS3Uploader.get_file_headers] (it does not use [self]). *)
Definition get_file_headers (file_path : string) : gmap string string :=
  let headers : gmap string string := {[ "StorageClass" := "STANDARD" ]} in
  let ext := PyStr.lower (Pathlib.suffix (Pathlib.of_str file_path)) in
  let headers :=
    match content_types !! ext with
    | Some content_type => <["ContentType" := content_type]> headers
    | None => headers
    end in
  let headers :=
    if decide (Pathlib.name (Pathlib.of_str file_path) = "index.html")
    then <["CacheControl" := "no-cache"]> headers
    else headers in
  headers.

(** The copy of one key from [headers] to [extra_args], when present. *)
Definition copy_key (k : string) (headers extra_args : gmap string string)
  : gmap string string :=
  match headers !! k with
  | Some v => <[k := v]> extra_args
  | None => extra_args
  end.

(** ** Key mapper *)

(** The key of a single-file upload, lines 165-173. *)
Definition single_file_key (file_path : Path) (dst_path : string) : string :=
  let s3_key :=
    if PyStr.endswith "/"%char dst_path || bool_decide (dst_path = "") then
      if bool_decide (dst_path ≠ "")
      then dst_path +:+ "/" +:+ Pathlib.name file_path
      else Pathlib.name file_path
    else dst_path in
  PyStr.lstrip "/"%char s3_key.

(** The key of one file of a directory upload, lines 209-211. *)
Definition directory_key (dst_path relative_path : string) : string :=
  PyStr.lstrip "/"%char
    (PyStr.replace "\"%char "/"%char (dst_path +:+ "/" +:+ relative_path)).

(** ** The methods of [AsyncS3Uploader] *)

Module AsyncS3Uploader.

(** [__init__]: both counters start at 0. *)
Definition __init__ (workers : Z) : uploader := mkUploader workers 0 0.

Section Methods.

(** The storage client, [self.s3.upload_file(Filename, Bucket, Key,
  ExtraArgs)]: [None] when it returns, [Some err] when it raises. *)
Variable s3_upload_file :
string → string → string → gmap string string → option string.

(** What the file system holds at a path ([None]: nothing there, so
  [exists()] is false). *)
Variable fs : Path → option node.

Definition call_upload_file (filename bucket key : string)
  (extra_args : gmap string string) : M unit := λ u,
(match s3_upload_file filename bucket key extra_args with
 | None => Return ()
 | Some err => Raise err
 end, u, [CallUploadFile filename bucket key extra_args]).

(** Lines 78-87: the [ExtraArgs] of the storage call. *)
Definition extra_args_of (file_path : Path) : gmap string string :=
let headers := get_file_headers (Pathlib.str file_path) in
let extra_args : gmap string string := ∅ in
let extra_args := copy_key "ContentType" headers extra_args in
let extra_args := copy_key "CacheControl" headers extra_args in
let extra_args := copy_key "StorageClass" headers extra_args in
extra_args.

(** [_upload_single_file], the body of a worker.  The two
  [with self.lock] blocks are the two counter updates with their
  prints. *)
Definition _upload_single_file (file_path : Path) (s3_key : string) : M bool :=
try_except
  (let extra_args := extra_args_of file_path in
   call_upload_file (Pathlib.str file_path) bucket_name s3_key extra_args;;
   n ← incr_uploaded;
   print (PrintUploaded n (Pathlib.name file_path) s3_key);;
   mret true)
  (λ e,
    n ← incr_failed;
    print (PrintUploadFailed n (Pathlib.name file_path) e);;
    mret false).

(** [_upload_single_file_sync].  [dst_path] is a [str], so the
  [dst_path is None] test of line 162 is never taken. *)
Definition _upload_single_file_sync (file_path : Path) (dst_path : string)
: M bool :=
try_except
  (if decide (Pathlib.name file_path = ".DS_Store") then
     print (PrintExcluded file_path);;
     mret false
   else
     (if PyStr.startswith "."%char (Pathlib.name file_path)
      then print (PrintDotWarning file_path) else mret ());;
     let s3_key := single_file_key file_path dst_path in
     print (PrintUploading file_path s3_key);;
     _upload_single_file file_path s3_key)
  (λ e, print (PrintFileError file_path e);; mret false).

(** One turn of the loop of lines 193-213 on the three lists. *)
Definition scan_entry (dir_path : Path) (dst_path : string)
  (include_root : bool) (acc : list task * list Path * list Path)
  (entry : Path * node) : result (list task * list Path * list Path) :=
let '(upload_tasks, excluded_files, warning_files) := acc in
let '(file_path, t) := entry in
if is_file t then
  if decide (Pathlib.name file_path = ".DS_Store") then
    Return (upload_tasks, excluded_files ++ [file_path], warning_files)
  else
    let warning_files :=
      if PyStr.startswith "."%char (Pathlib.name file_path)
      then warning_files ++ [file_path] else warning_files in
    let relative_path :=
      if include_root then Some (Pathlib.str file_path)
      else Pathlib.str <$> Pathlib.relative_to file_path dir_path in
    match relative_path with
    | Some relative_path =>
        let s3_key := directory_key dst_path relative_path in
        Return (upload_tasks ++ [(file_path, s3_key)], excluded_files,
                warning_files)
    | None => Raise "ValueError"
    end
else Return acc.

Fixpoint scan (dir_path : Path) (dst_path : string) (include_root : bool)
  (entries : list (Path * node)) (acc : list task * list Path * list Path)
: result (list task * list Path * list Path) :=
match entries with
| [] => Return acc
| entry :: entries' =>
    match scan_entry dir_path dst_path include_root acc entry with
    | Return acc' => scan dir_path dst_path include_root entries' acc'
    | Raise err => Raise err
    end
end.

Definition lift {A} (r : result A) : M A := λ u, (r, u, []).

(** The workers of the pool run one after the other, in the order of
  submission; [pool_step] below is the pool with its interleavings. *)
Fixpoint run_workers (upload_tasks : list task) : M unit :=
match upload_tasks with
| [] => mret ()
| (file_path, s3_key) :: rest =>
    _upload_single_file file_path s3_key;;
    run_workers rest
end.

(** *** The pool of [_upload_concurrent], with its interleavings

  A worker takes the next submitted task when fewer than [workers] are
  busy, calls the storage client without holding the lock, and later
  enters its critical section, where it updates one counter and prints.
  Workers leave in any order. *)

Definition outcome (t : task) : option string :=
s3_upload_file (Pathlib.str t.1) bucket_name t.2 (extra_args_of t.1).

Definition call_event (t : task) : event :=
CallUploadFile (Pathlib.str t.1) bucket_name t.2 (extra_args_of t.1).

(** Lines 96-100 and 102-106: what a worker does once its call to the
  client has returned ([None]) or raised ([Some e]). *)
Definition critical_section (t : task) (o : option string) : M bool :=
match o with
| None =>
    n ← incr_uploaded;
    print (PrintUploaded n (Pathlib.name t.1) t.2);;
    mret true
| Some e =>
    n ← incr_failed;
    print (PrintUploadFailed n (Pathlib.name t.1) e);;
    mret false
end.

Record pool := mkPool {
queue : list task;
busy : list (task * option string);
self : uploader;
output : list event
}.

Inductive pool_step : pool → pool → Prop :=
| pool_start t q b u out :
  (Z.of_nat (length b) < workers u)%Z →
  pool_step (mkPool (t :: q) b u out)
            (mkPool q (b ++ [(t, outcome t)]) u (out ++ [call_event t]))
| pool_finish t o b1 b2 q u out r u' out' :
  critical_section t o u = (r, u', out') →
  pool_step (mkPool q (b1 ++ (t, o) :: b2) u out)
            (mkPool q (b1 ++ b2) u' (out ++ out')).

Definition pool_init (u : uploader) (upload_tasks : list task) : pool :=
mkPool upload_tasks [] u [].

Definition drained (s : pool) : Prop := queue s = [] ∧ busy s = [].

(** [_upload_concurrent].  [ThreadPoolExecutor(max_workers=n)] raises
  [ValueError] when [n <= 0].  No worker raises, so [future.result()]
  does not either and line 258 prints nothing. *)
Definition _upload_concurrent (upload_tasks : list task) : M bool :=
print PrintConcurrentMode;;
w ← get workers;
(if (w <=? 0)%Z then raise "max_workers must be greater than 0"
 else mret ());;
run_workers upload_tasks;;
uploaded ← get uploaded_count;
failed ← get failed_count;
print (PrintSummary uploaded failed);;
mret (bool_decide (failed = 0)).

(** [_upload_directory]. *)
Definition _upload_directory (dir_path : Path) (dst_path : string)
  (include_root : bool) : M bool :=
w ← get workers;
print (PrintDirectory dir_path dst_path include_root w);;
let entries := from_option (rglob dir_path) [] (fs dir_path) in
'(upload_tasks, excluded_files, warning_files) ←
  lift (scan dir_path dst_path include_root entries ([], [], []));
(if bool_decide (excluded_files ≠ [])
 then print (PrintExcludedCount (length excluded_files)) else mret ());;
(if bool_decide (warning_files ≠ [])
 then print (PrintWarnings warning_files) else mret ());;
let total_files := length upload_tasks in
print (PrintTotal total_files);;
match upload_tasks with
| [] => print PrintNothingToUpload;; mret true
| [(file_path, s3_key)] => _upload_single_file file_path s3_key
| _ => _upload_concurrent upload_tasks
end.

(** [upload].  [start_time] is taken after the existence test; the
  [finally] clause prints the elapsed time. *)
Definition upload (src_path dst_path : string) (include_root : bool)
: M bool :=
let src_path := Pathlib.of_str src_path in
let dst_path := PyStr.rstrip "/"%char dst_path in
match fs src_path with
| None =>
    print (PrintSourceMissing src_path);;
    mret false
| Some t =>
    try_finally
      (try_except
         (if is_file t then _upload_single_file_sync src_path dst_path
          else if is_dir t then
            _upload_directory src_path dst_path include_root
          else
            print (PrintUnsupported src_path);;
            mret false)
         (λ e, print (PrintError e);; mret false))
      (print PrintElapsed)
end.

End Methods.
End AsyncS3Uploader.

(** The module-level [upload]: a new uploader for each call. *)
Definition upload (s3_upload_file : string → string → string → gmap string string → option string)
    (fs : Path → option node)
    (src_path dst_path : string) (include_root : bool) (workers : Z)
  : result bool * uploader * list event :=
  AsyncS3Uploader.upload s3_upload_file fs src_path dst_path include_root
    (AsyncS3Uploader.__init__ workers).

(** ** What is observed of a run *)

(** The storage calls of an output, in order: file name, bucket, key and
    extra arguments. *)
Definition attempts (out : list event)
  : list (string * string * string * gmap string string) :=
  omap (λ e, match e with
             | CallUploadFile f b k x => Some (f, b, k, x)
             | _ => None
             end) out.

(** The remote keys of the storage calls of an output. *)
Definition keys (out : list event) : list string :=
  (λ a, a.1.2) <$> attempts out.

(** [c * n] in Python: [n] copies of [c]. *)
Fixpoint copies (c : ascii) (n : nat) : string :=
  match n with
  | 0 => ""
  | S n' => String c (copies c n')
  end.

(** The extensions that the specification lists for the MIME table. *)
Definition listed_extensions : list string :=
  [".html"; ".css"; ".js"; ".json"; ".png"; ".jpg"; ".jpeg"; ".gif"; ".svg";
   ".ico"; ".webp"; ".txt"; ".md"; ".xml"; ".pdf"; ".zip"; ".woff"; ".woff2";
   ".ttf"; ".eot"].

(** Environments for the concrete runs below. *)
Definition always_ok
  : string → string → string → gmap string string → option string :=
  λ _ _ _ _, None.

Definition only_at (src : string) (t : node) : Path → option node :=
  λ p, if decide (p = Pathlib.of_str src) then Some t else None.

Definition nothing : Path → option node := λ _, None.

(** The storage call that a task leads to. *)
Definition attempt_of (t : task) : string * string * string * gmap string string :=
  (Pathlib.str t.1, bucket_name, t.2, AsyncS3Uploader.extra_args_of t.1).

(** Whether the client raises on a call. *)
Definition raises
    (s3_upload_file : string → string → string → gmap string string → option string)
    (a : string * string * string * gmap string string) : bool :=
  match s3_upload_file a.1.1.1 a.1.1.2 a.1.2 a.2 with
  | None => false
  | Some _ => true
  end.

(** The number of calls of a list on which the client raises, and on which
    it returns. *)
Definition count_raising s3_upload_file
    (l : list (string * string * string * gmap string string)) : nat :=
  length (List.filter (raises s3_upload_file) l).

Definition count_returning s3_upload_file
    (l : list (string * string * string * gmap string string)) : nat :=
  length (List.filter (λ a, negb (raises s3_upload_file a)) l).

(** The paths below a directory, relative to it, in the order of [rglob]. *)
Fixpoint rglob_rel (t : node) : list (list string * node) :=
  match t with
  | Dir es =>
      map (λ e, ([e.1], e.2)) es ++
      (fix below (es : list (string * node)) : list (list string * node) :=
         match es with
         | [] => []
         | (n, c) :: es' => map (λ x, (n :: x.1, x.2)) (rglob_rel c) ++ below es'
         end) es
  | _ => []
  end.

(** [p] is a regular file somewhere below the directory [dir], whose
    content is [t]. *)
Definition file_under (dir : Path) (t : node) (p : Path) : Prop :=
  ∃ rel, rel ≠ [] ∧ p = Pathlib.descend dir rel ∧ walk rel t = Some File.

(** What the file filter does with an entry that [rglob] yields: [kept] for
    a regular file that is not named '.DS_Store', [dropped] for one that is;
    directories and other entries are neither. *)
Definition kept (e : Path * node) : option Path :=
  if is_file e.2 then
    if decide (Pathlib.name e.1 = ".DS_Store") then None else Some e.1
  else None.

Definition dropped (e : Path * node) : option Path :=
  if is_file e.2 then
    if decide (Pathlib.name e.1 = ".DS_Store") then Some e.1 else None
  else None.

Definition is_dot_file (p : Path) : Prop :=
  PyStr.startswith "."%char (Pathlib.name p) = true.

Global Instance is_dot_file_dec p : Decision (is_dot_file p).
Proof. unfold is_dot_file. apply _. Defined.

(** The files below a directory that are not named '.DS_Store'. *)
Definition eligible (dir : Path) (t : node) : list Path :=
  omap kept (rglob dir t).

(** The ways in which [upload] fails before, or instead of, running the
    tasks: the source is missing; it is neither a file nor a directory; it is
    a single file named '.DS_Store'; the pool of a directory with two or
    more tasks cannot be created because [workers] is not positive. *)
Inductive scheduling_error :=
| SourceNotFound
| UnsupportedPathType
| ExcludedSingleFile
| PoolNotCreated.

Definition scheduling_error_of (fs : Path → option node) (src_path : string)
    (workers : Z) : option scheduling_error :=
  let p := Pathlib.of_str src_path in
  match fs p with
  | None => Some SourceNotFound
  | Some File =>
      if decide (Pathlib.name p = ".DS_Store") then Some ExcludedSingleFile
      else None
  | Some Other => Some UnsupportedPathType
  | Some (Dir es) =>
      if decide (2 ≤ length (eligible p (Dir es)) ∧ (workers ≤ 0)%Z)
      then Some PoolNotCreated else None
  end.

(** Induction on a [node] with the hypothesis for every entry of a
    directory. *)
Fixpoint node_entries_ind (P : node → Prop) (HFile : P File) (HOther : P Other)
    (HDir : ∀ es, Forall (λ e, P e.2) es → P (Dir es)) (t : node) : P t :=
  match t with
  | File => HFile
  | Other => HOther
  | Dir es =>
      HDir es
        ((fix all (es : list (string * node)) : Forall (λ e, P e.2) es :=
            match es with
            | [] => @List.Forall_nil _ (λ e, P e.2)
            | (n, c) :: es' =>
                @List.Forall_cons _ (λ e, P e.2) (n, c) es'
                  (node_entries_ind P HFile HOther HDir c) (all es')
            end) es)
  end.

(** What every state of a run of the pool satisfies, for the uploader [u0]
    and the tasks it started from: the calls still to be counted (those of
    busy workers and of queued tasks) account for the difference between the
    counters and their final values. *)
Definition pool_inv s3_upload_file (u0 : uploader) (upload_tasks : list task)
    (s : AsyncS3Uploader.pool) : Prop :=
  let pending :=
    attempt_of <$> ((AsyncS3Uploader.busy s).*1 ++ AsyncS3Uploader.queue s) in
  workers (AsyncS3Uploader.self s) = workers u0 ∧
  Forall (λ b, b.2 = AsyncS3Uploader.outcome s3_upload_file b.1)
    (AsyncS3Uploader.busy s) ∧
  uploaded_count (AsyncS3Uploader.self s) + count_returning s3_upload_file pending =
    uploaded_count u0 + count_returning s3_upload_file (attempt_of <$> upload_tasks) ∧
  failed_count (AsyncS3Uploader.self s) + count_raising s3_upload_file pending =
    failed_count u0 + count_raising s3_upload_file (attempt_of <$> upload_tasks) ∧
  attempts (AsyncS3Uploader.output s) ++ (attempt_of <$> AsyncS3Uploader.queue s)
    ≡ₚ attempt_of <$> upload_tasks.

(** A client that raises on PNG files only. *)
Definition no_png
  : string → string → string → gmap string string → option string :=
  λ f _ _ _,
    if bool_decide (Pathlib.suffix (Pathlib.of_str f) = ".png")
    then Some "AccessDenied" else None.

(** Two tasks, the second of which [no_png] refuses, and the state of a
    pool of two workers after both calls were made and the second worker
    left before the first. *)
Definition two_tasks : list task :=
  [(Pathlib.of_str "site/a.txt", "a.txt"); (Pathlib.of_str "site/b.png", "b.png")].

Definition two_tasks_drained : AsyncS3Uploader.pool :=
  AsyncS3Uploader.mkPool [] [] (mkUploader 2 1 1)
    [CallUploadFile "site/a.txt" bucket_name "a.txt"
       (AsyncS3Uploader.extra_args_of (Pathlib.of_str "site/a.txt"));
     CallUploadFile "site/b.png" bucket_name "b.png"
       (AsyncS3Uploader.extra_args_of (Pathlib.of_str "site/b.png"));
     PrintUploadFailed 1 "b.png" "AccessDenied";
     PrintUploaded 1 "a.txt" "a.txt"].

(** Lines 204-209: the path that is appended to the destination. *)
Definition relative_path (dir_path : Path) (include_root : bool)
    (file_path : Path) : string :=
  if include_root then Pathlib.str file_path
  else from_option Pathlib.str "" (Pathlib.relative_to file_path dir_path).

(** The task of a file that is kept. *)
Definition task_of (dir_path : Path) (dst_path : string) (include_root : bool)
    (file_path : Path) : task :=
  (file_path, directory_key dst_path (relative_path dir_path include_root file_path)).

(** What [rglob] yields at [dir_path], nothing when there is no directory. *)
Definition entries_at (fs : Path → option node) (dir_path : Path)
  : list (Path * node) :=
  from_option (rglob dir_path) [] (fs dir_path).

(** A run from the uploader [u] is accounted for when it leaves [workers]
    alone and each counter has grown by the number of its storage calls that
    returned, respectively raised. *)
Definition accounted {A} s3_upload_file (u : uploader)
    (x : result A * uploader * list event) : Prop :=
  workers x.1.2 = workers u ∧
  uploaded_count x.1.2 =
    uploaded_count u + count_returning s3_upload_file (attempts x.2) ∧
  failed_count x.1.2 =
    failed_count u + count_raising s3_upload_file (attempts x.2).

(** A run that does not raise. *)
Definition returns {A} (x : result A * uploader * list event) : Prop :=
  ∃ a, x.1.1 = Return a.

(** Lines 184-186 and 215-227: what [_upload_directory] prints before it
    runs any task. *)
Definition directory_header (fs : Path → option node) (dir_path : Path)
    (dst_path : string) (include_root : bool) (workers : Z) : list event :=
  let excluded_files := omap dropped (entries_at fs dir_path) in
  let warning_files := filter is_dot_file (omap kept (entries_at fs dir_path)) in
  [PrintDirectory dir_path dst_path include_root workers] ++
  (if bool_decide (excluded_files ≠ [])
   then [PrintExcludedCount (length excluded_files)] else []) ++
  (if bool_decide (warning_files ≠ [])
   then [PrintWarnings warning_files] else []) ++
  [PrintTotal (length (omap kept (entries_at fs dir_path)))].

(** * Properties *)

(** ** Strings *)

Lemma app_String a s t : String a s +:+ t = String a (s +:+ t).
Proof. reflexivity. Qed.

Lemma rstrip_copies c n : PyStr.rstrip c (copies c n) = "".
Proof.
  induction n as [|n IH]; [done|].
  cbn [copies PyStr.rstrip]. rewrite IH. by rewrite Ascii.eqb_refl.
Qed.

Lemma rstrip_app_copies c s n :
  PyStr.rstrip c (s +:+ copies c n) = PyStr.rstrip c s.
Proof.
  induction s as [|a s IH].
  - apply rstrip_copies.
  - rewrite app_String. cbn [PyStr.rstrip]. by rewrite IH.
Qed.

Lemma rstrip_endswith c s : PyStr.endswith c (PyStr.rstrip c s) = false.
Proof.
  induction s as [|a s IH]; [done|].
  cbn [PyStr.rstrip].
  destruct (PyStr.rstrip c s) as [|b r] eqn:E.
  - destruct (Ascii.eqb a c) eqn:Ea; [done|]. cbn. exact Ea.
  - exact IH.
Qed.

Lemma lstrip_startswith c s : PyStr.startswith c (PyStr.lstrip c s) = false.
Proof.
  induction s as [|a s IH]; [done|].
  cbn [PyStr.lstrip]. destruct (Ascii.eqb a c) eqn:Ea; [done|].
  cbn. exact Ea.
Qed.

Lemma lstrip_contains c d s :
  PyStr.contains d s = false → PyStr.contains d (PyStr.lstrip c s) = false.
Proof.
  induction s as [|a s IH]; [done|].
  cbn [PyStr.lstrip PyStr.contains]. intros [? ?]%orb_false_iff.
  destruct (Ascii.eqb a c); [by apply IH|].
  cbn [PyStr.contains]. by apply orb_false_iff.
Qed.

Lemma replace_contains a b s :
  a ≠ b → PyStr.contains a (PyStr.replace a b s) = false.
Proof.
  intros Hab. induction s as [|x s IH]; [done|].
  cbn [PyStr.replace PyStr.contains]. rewrite IH, orb_false_r.
  destruct (Ascii.eqb x a) eqn:Ex; [|done].
  apply Ascii.eqb_neq. congruence.
Qed.

(** ** Key mapper *)

(** The key of a file of a directory upload holds no backslash and does not
    start with '/'. *)
Lemma directory_key_normalised dst_path relative_path :
  PyStr.contains "\"%char (directory_key dst_path relative_path) = false ∧
  PyStr.startswith "/"%char (directory_key dst_path relative_path) = false.
Proof.
  unfold directory_key. split.
  - by apply lstrip_contains, replace_contains.
  - apply lstrip_startswith.
Qed.

(** The key of a single file does not start with '/'. *)
Lemma single_file_key_relative file_path dst_path :
  PyStr.startswith "/"%char (single_file_key file_path dst_path) = false.
Proof. apply lstrip_startswith. Qed.

(** After [upload] has stripped the trailing slashes, the branch of
    [_upload_single_file_sync] for a destination ending in '/' is never
    taken: the key is the file name for an empty destination and the
    destination itself otherwise. *)
Lemma single_file_key_rstrip file_path dst_path :
  single_file_key file_path (PyStr.rstrip "/"%char dst_path) =
  if decide (PyStr.rstrip "/"%char dst_path = "")
  then PyStr.lstrip "/"%char (Pathlib.name file_path)
  else PyStr.lstrip "/"%char (PyStr.rstrip "/"%char dst_path).
Proof.
  unfold single_file_key. rewrite rstrip_endswith.
  case_decide as E.
  - rewrite E. reflexivity.
  - rewrite bool_decide_eq_false_2 by done. reflexivity.
Qed.

(** ** Metadata resolver *)

Lemma content_types_listed ext :
  ext ∈ listed_extensions ↔ is_Some (content_types !! ext).
Proof.
  split.
  - intros Hin. unfold listed_extensions in Hin.
    repeat (apply elem_of_cons in Hin as [->|Hin]; [by vm_compute; eexists|]).
    by apply elem_of_nil in Hin.
  - intros [v Hv]. destruct (decide (ext ∈ listed_extensions)) as [|Hn]; [done|].
    exfalso. unfold content_types in Hv.
    apply elem_of_list_to_map_2 in Hv.
    apply Hn. apply (list_elem_of_fmap_2 fst) in Hv. exact Hv.
Qed.

Lemma get_file_headers_StorageClass file_path :
  get_file_headers file_path !! "StorageClass" = Some "STANDARD".
Proof.
  unfold get_file_headers.
  destruct (content_types !! _); case_decide; by simplify_map_eq.
Qed.

Lemma get_file_headers_ContentType file_path :
  get_file_headers file_path !! "ContentType" =
  content_types !! PyStr.lower (Pathlib.suffix (Pathlib.of_str file_path)).
Proof.
  unfold get_file_headers.
  destruct (content_types !! _); case_decide; by simplify_map_eq.
Qed.

Lemma get_file_headers_CacheControl file_path :
  get_file_headers file_path !! "CacheControl" =
  if decide (Pathlib.name (Pathlib.of_str file_path) = "index.html")
  then Some "no-cache" else None.
Proof.
  unfold get_file_headers.
  destruct (content_types !! _); case_decide; by simplify_map_eq.
Qed.

Lemma get_file_headers_dom file_path k :
  is_Some (get_file_headers file_path !! k) →
  k = "StorageClass" ∨ k = "ContentType" ∨ k = "CacheControl".
Proof.
  unfold get_file_headers. intros [v Hv].
  destruct (content_types !! _); case_decide;
    repeat (apply lookup_insert_Some in Hv as [[<- _]|[_ Hv]]; [by auto|]);
    apply lookup_singleton_Some in Hv as [<- _]; auto.
Qed.

(** C5: for every file path the resolver gives a record whose storage class
    is the fixed tier STANDARD; whose content type is the table's MIME type
    when the lowered suffix is one of the twenty listed extensions and is
    unset for any other; whose cache control is no-cache exactly when the
    name is index.html and unset otherwise; and which has no other field.
    The resolver is a total function. *)
Theorem get_file_headers_record (file_path : string) :
  let headers := get_file_headers file_path in
  let ext := PyStr.lower (Pathlib.suffix (Pathlib.of_str file_path)) in
  headers !! "StorageClass" = Some "STANDARD" ∧
  (if decide (ext ∈ listed_extensions)
   then is_Some (headers !! "ContentType") ∧
        headers !! "ContentType" = content_types !! ext
   else headers !! "ContentType" = None) ∧
  (if decide (Pathlib.name (Pathlib.of_str file_path) = "index.html")
   then headers !! "CacheControl" = Some "no-cache"
   else headers !! "CacheControl" = None) ∧
  dom headers ⊆ {[ "StorageClass"; "ContentType"; "CacheControl" ]}.
Proof.
  cbv zeta. split_and!.
  - apply get_file_headers_StorageClass.
  - rewrite get_file_headers_ContentType. case_decide as Hext.
    + split; [|done]. by apply content_types_listed.
    + apply eq_None_not_Some. by rewrite <- content_types_listed.
  - rewrite get_file_headers_CacheControl. by case_decide.
  - intros k Hk. apply elem_of_dom in Hk.
    apply get_file_headers_dom in Hk as [->| [->| ->]]; set_solver.
Qed.

(** C9: the content type depends on the suffix only up to letter case
    ('photo.PNG' gets image/png), while the cache-control test compares the
    name with 'index.html' as it is ('INDEX.HTML' gets a content type but no
    cache control). *)
Theorem get_file_headers_case :
  get_file_headers "photo.PNG" !! "ContentType" = Some "image/png" ∧
  get_file_headers "INDEX.HTML" !! "ContentType" = Some "text/html" ∧
  get_file_headers "INDEX.HTML" !! "CacheControl" = None ∧
  (∀ p q : string,
     PyStr.lower (Pathlib.suffix (Pathlib.of_str p)) =
     PyStr.lower (Pathlib.suffix (Pathlib.of_str q)) →
     get_file_headers p !! "ContentType" = get_file_headers q !! "ContentType") ∧
  (∀ p : string,
     get_file_headers p !! "CacheControl" = Some "no-cache" ↔
     Pathlib.name (Pathlib.of_str p) = "index.html").
Proof.
  split_and!; try by vm_compute.
  - intros p q Hpq. by rewrite !get_file_headers_ContentType, Hpq.
  - intros p. rewrite get_file_headers_CacheControl. by case_decide.
Qed.

Lemma get_file_headers_case_witness :
  get_file_headers "a/Logo.JpEg" !! "ContentType" =
  get_file_headers "b/shot.jpeg" !! "ContentType".
Proof.
  apply (proj1 (proj2 (proj2 (proj2 get_file_headers_case)))).
  vm_compute. reflexivity.
Defined.

(** ** The methods *)

Ltac unfold_monad :=
  unfold mbind, M_bind, mret, M_ret, print, get, raise, try_except,
    try_finally, incr_uploaded, incr_failed, AsyncS3Uploader.lift,
    AsyncS3Uploader.call_upload_file in *.

Section MethodProperties.

Variable s3_upload_file :
  string → string → string → gmap string string → option string.
Variable fs : Path → option node.

Abbreviation _upload_single_file :=
  (AsyncS3Uploader._upload_single_file s3_upload_file).
Abbreviation outcome := (AsyncS3Uploader.outcome s3_upload_file).
Abbreviation run_workers := (AsyncS3Uploader.run_workers s3_upload_file).
Abbreviation method_upload := (AsyncS3Uploader.upload s3_upload_file fs).

Lemma critical_section_run t o u :
  AsyncS3Uploader.critical_section t o u =
  match o with
  | None =>
      (Return true,
       mkUploader (workers u) (S (uploaded_count u)) (failed_count u),
       [PrintUploaded (S (uploaded_count u)) (Pathlib.name t.1) t.2])
  | Some e =>
      (Return false,
       mkUploader (workers u) (uploaded_count u) (S (failed_count u)),
       [PrintUploadFailed (S (failed_count u)) (Pathlib.name t.1) e])
  end.
Proof. by destruct o. Qed.

(** A worker is the storage call followed by its critical section. *)
Lemma _upload_single_file_run file_path s3_key u :
  _upload_single_file file_path s3_key u =
  let t := (file_path, s3_key) in
  let '(r, u', out) := AsyncS3Uploader.critical_section t (outcome t) u in
  (r, u', AsyncS3Uploader.call_event t :: out).
Proof.
  cbv zeta. rewrite critical_section_run.
  unfold AsyncS3Uploader._upload_single_file, AsyncS3Uploader.outcome,
    AsyncS3Uploader.call_event.
  unfold_monad. cbn [fst snd].
  by destruct (s3_upload_file _ _ _ _).
Qed.

(** C10: [upload] strips the trailing '/' of the destination before
    anything else, so two destinations that differ only in their number of
    trailing slashes give the same result, the same counters and the same
    output, keys included, whatever the source, the mode and the
    uploader. *)
Theorem upload_trailing_slashes (src_path dst_path : string) (n m : nat)
    (include_root : bool) (u : uploader) :
  method_upload src_path (dst_path +:+ copies "/"%char n) include_root u =
  method_upload src_path (dst_path +:+ copies "/"%char m) include_root u.
Proof.
  unfold AsyncS3Uploader.upload. by rewrite !rstrip_app_copies.
Qed.

End MethodProperties.

(** C1: a single file 'report.pdf' uploaded to '/docs/' gets the key 'docs',
    not 'docs/report.pdf': [upload] has stripped the trailing '/' before
    [_upload_single_file_sync] tests for it, so the destination is taken as
    the whole key. *)
Theorem single_file_into_slash_destination :
  keys (upload always_ok (only_at "report.pdf" File)
          "report.pdf" "/docs/" false 10).2 = ["docs"].
Proof. vm_compute. reflexivity. Qed.

(** Called on its own with that destination, the inner method joins with a
    second '/'. *)
Lemma single_file_sync_slash_destination :
  keys (AsyncS3Uploader._upload_single_file_sync always_ok
          (Pathlib.of_str "report.pdf") "/docs/"
          (AsyncS3Uploader.__init__ 10)).2 = ["docs//report.pdf"].
Proof. vm_compute. reflexivity. Qed.

(** C2: with [include_root] the key holds the whole source path as it was
    given, not the path from the parent of the source directory: for the
    directory 'build/dist' and the destination '/v1.0.0' the file a.js gets
    'v1.0.0/build/dist/a.js', not 'v1.0.0/dist/a.js'. *)
Theorem include_root_keeps_whole_source_path :
  keys (upload always_ok (only_at "build/dist" (Dir [("a.js", File)]))
          "build/dist" "/v1.0.0" true 10).2 = ["v1.0.0/build/dist/a.js"].
Proof. vm_compute. reflexivity. Qed.

(** For a source given as one relative component the key is as the
    specification has it. *)
Lemma include_root_one_component :
  keys (upload always_ok
          (only_at "dist" (Dir [("a.js", File); ("css", Dir [("b.css", File)])]))
          "dist" "/v1.0.0" true 10).2 =
  ["v1.0.0/dist/a.js"; "v1.0.0/dist/css/b.css"].
Proof. vm_compute. reflexivity. Qed.

(** C7: in single-file mode a backslash of the destination stays in the
    key: 'report.pdf' uploaded to 'docs\report.pdf' gets that very key. *)
Theorem single_file_key_keeps_backslash :
  keys (upload always_ok (only_at "report.pdf" File)
          "report.pdf" "docs\report.pdf" false 10).2 = ["docs\report.pdf"] ∧
  PyStr.contains "\"%char "docs\report.pdf" = true.
Proof. vm_compute. split; reflexivity. Qed.


(** ** Elapsed time *)

Section Elapsed.

Variable s3_upload_file :
  string → string → string → gmap string string → option string.
Variable fs : Path → option node.

(** C8, as the code has it: when the source exists the output ends with the
    elapsed-time line, whatever the outcome (success, a failed upload, an
    unsupported path type or an exception); when the source does not exist
    the only output is the not-found message and the result is false. *)
Theorem upload_elapsed_line (src_path dst_path : string) (include_root : bool)
    (u : uploader) :
  let '(r, _, out) :=
    AsyncS3Uploader.upload s3_upload_file fs src_path dst_path include_root u in
  (is_Some (fs (Pathlib.of_str src_path)) → last out = Some PrintElapsed) ∧
  (fs (Pathlib.of_str src_path) = None →
   r = Return false ∧ out = [PrintSourceMissing (Pathlib.of_str src_path)]).
Proof.
  unfold AsyncS3Uploader.upload.
  destruct (fs (Pathlib.of_str src_path)) as [t|] eqn:Hfs.
  - unfold try_finally.
    destruct (try_except _ _ u) as [[r u1] out1].
    cbn. split; [|done]. intros _. apply last_snoc.
  - cbn. split; [|done]. by intros [? ?].
Qed.

End Elapsed.

(** C8, as stated, fails: for a source that does not exist the output has
    no elapsed-time line. *)
Lemma upload_missing_source_no_elapsed :
  PrintElapsed ∉ (upload always_ok nothing "missing" "/" false 10).2.
Proof. vm_compute. by intros ?%list_elem_of_singleton. Qed.

Lemma upload_elapsed_line_witness :
  last (upload always_ok (only_at ".DS_Store" File) ".DS_Store" "/" false 10).2
  = Some PrintElapsed.
Proof.
  pose proof (upload_elapsed_line always_ok (only_at ".DS_Store" File)
                ".DS_Store" "/" false (AsyncS3Uploader.__init__ 10)) as H.
  unfold upload.
  destruct (AsyncS3Uploader.upload _ _ _ _ _ _) as [[r u'] out].
  apply H. vm_compute. eauto.
Defined.

(** ** The pool *)

Section Pool.

Variable s3_upload_file :
  string → string → string → gmap string string → option string.

Abbreviation pool_step := (AsyncS3Uploader.pool_step s3_upload_file).
Abbreviation returning := (count_returning s3_upload_file).
Abbreviation raising := (count_raising s3_upload_file).

Lemma count_app l1 l2 :
  returning (l1 ++ l2) = returning l1 + returning l2 ∧
  raising (l1 ++ l2) = raising l1 + raising l2.
Proof.
  unfold count_returning, count_raising.
  by rewrite !List.filter_app, !length_app.
Qed.

Lemma count_cons a l :
  returning (a :: l) =
    (if raises s3_upload_file a then 0 else 1) + returning l ∧
  raising (a :: l) =
    (if raises s3_upload_file a then 1 else 0) + raising l.
Proof.
  unfold count_returning, count_raising. cbn [List.filter].
  by destruct (raises s3_upload_file a).
Qed.

Lemma count_length l : returning l + raising l = length l.
Proof.
  induction l as [|a l IH]; [done|].
  destruct (count_cons a l) as [-> ->]. cbn [length].
  destruct (raises s3_upload_file a); lia.
Qed.

Lemma raises_outcome t :
  raises s3_upload_file (attempt_of t) =
  match AsyncS3Uploader.outcome s3_upload_file t with
  | None => false
  | Some _ => true
  end.
Proof. reflexivity. Qed.

Lemma attempts_app out1 out2 :
  attempts (out1 ++ out2) = attempts out1 ++ attempts out2.
Proof. apply omap_app. Qed.

Lemma pool_inv_init u0 upload_tasks :
  pool_inv s3_upload_file u0 upload_tasks
    (AsyncS3Uploader.pool_init u0 upload_tasks).
Proof. unfold pool_inv. by cbn. Qed.

Lemma count_perm l l' :
  l ≡ₚ l' → returning l = returning l' ∧ raising l = raising l'.
Proof.
  induction 1 as [|a l l' _ [IH1 IH2]|a b l|l l' l'' _ [-> ->] _ [-> ->]];
    [done| | |done].
  - destruct (count_cons a l) as [-> ->], (count_cons a l') as [-> ->].
    by rewrite IH1, IH2.
  - destruct (count_cons a (b :: l)) as [-> ->], (count_cons b l) as [-> ->],
      (count_cons b (a :: l)) as [-> ->], (count_cons a l) as [-> ->].
    split; lia.
Qed.

Lemma pending_start (b : list (task * option string)) t o q :
  attempt_of <$> (b ++ [(t, o)]).*1 ++ q = attempt_of <$> b.*1 ++ t :: q.
Proof. f_equal. by rewrite fmap_app, <- app_assoc. Qed.

Lemma pending_finish (b1 b2 : list (task * option string)) t o q :
  attempt_of <$> (b1 ++ (t, o) :: b2).*1 ++ q ≡ₚ
  attempt_of t :: (attempt_of <$> (b1 ++ b2).*1 ++ q).
Proof.
  rewrite <- fmap_cons. apply fmap_Permutation.
  rewrite !(fmap_app fst), fmap_cons. cbn [fst].
  rewrite <- !app_assoc. cbn [app].
  symmetry. apply Permutation_middle.
Qed.

Lemma pool_inv_step u0 upload_tasks s s' :
  pool_inv s3_upload_file u0 upload_tasks s →
  pool_step s s' →
  pool_inv s3_upload_file u0 upload_tasks s'.
Proof.
  unfold pool_inv. intros (Hw & Hbusy & Hup & Hfail & Hcalls) Hstep.
  destruct Hstep as [t q b u out Hfree | t o b1 b2 q u out r u' out' Hcs];
    cbn [AsyncS3Uploader.busy AsyncS3Uploader.queue AsyncS3Uploader.self
         AsyncS3Uploader.output] in *.
  - rewrite pending_start. split_and!; [done| |done|done|].
    + apply Forall_app. split; [done|]. by apply Forall_singleton.
    + by rewrite attempts_app, <- app_assoc.
  - apply Forall_app in Hbusy as [Hb1 [Ho Hb2]%Forall_cons].
    cbn [fst snd] in Ho.
    destruct (count_perm _ _ (pending_finish b1 b2 t o q)) as [E1 E2].
    destruct (count_cons (attempt_of t) (attempt_of <$> (b1 ++ b2).*1 ++ q))
      as [E3 E4].
    rewrite E1, E3 in Hup. rewrite E2, E4 in Hfail.
    rewrite raises_outcome, <- Ho in Hup, Hfail.
    rewrite critical_section_run in Hcs. rewrite attempts_app.
    destruct o; simplify_eq; cbn [workers uploaded_count failed_count];
      cbn [attempts omap]; rewrite app_nil_r;
      (split_and!; [done|by apply Forall_app|lia|lia|done]).
Qed.

Lemma pool_inv_reachable u0 upload_tasks s :
  rtc pool_step (AsyncS3Uploader.pool_init u0 upload_tasks) s →
  pool_inv s3_upload_file u0 upload_tasks s.
Proof.
  revert s. apply rtc_ind_r.
  - apply pool_inv_init.
  - intros s s' _ Hstep IH. by eapply pool_inv_step.
Qed.

(** A pool that is not drained can take a step: a busy worker can always
    finish, whatever its call did, and with no busy worker a queued task is
    started. *)
Lemma pool_progress s :
  (0 < workers (AsyncS3Uploader.self s))%Z →
  ¬ AsyncS3Uploader.drained s → ∃ s', pool_step s s'.
Proof.
  destruct s as [q b u out]. cbn [AsyncS3Uploader.self]. intros Hw Hnot.
  destruct b as [|[t o] b].
  - destruct q as [|t q]; [by destruct Hnot|].
    eexists. apply AsyncS3Uploader.pool_start. cbn [length]. lia.
  - destruct (AsyncS3Uploader.critical_section t o u) as [[r u'] out'] eqn:E.
    eexists. by apply (AsyncS3Uploader.pool_finish _ t o [] b q u out r u' out').
Qed.

Lemma critical_section_workers t o u r u' out' :
  AsyncS3Uploader.critical_section t o u = (r, u', out') →
  workers u' = workers u.
Proof. rewrite critical_section_run. destruct o; by intros [= <- <- <-]. Qed.

Lemma pool_finish_all q b u out :
  ∃ u' out',
    rtc pool_step (AsyncS3Uploader.mkPool q b u out)
      (AsyncS3Uploader.mkPool q [] u' out') ∧
    workers u' = workers u.
Proof.
  revert u out. induction b as [|[t o] b IH]; intros u out.
  - by exists u, out.
  - destruct (AsyncS3Uploader.critical_section t o u) as [[r u1] out1] eqn:E.
    destruct (IH u1 (out ++ out1)) as (u' & out' & Hrun & Hw).
    exists u', out'. split.
    + eapply rtc_l; [|exact Hrun].
      by apply (AsyncS3Uploader.pool_finish _ t o [] b q u out r u1 out1).
    + rewrite Hw. by eapply critical_section_workers.
Qed.

(** Every state of the pool can be run until it is drained. *)
Lemma pool_drains s :
  (0 < workers (AsyncS3Uploader.self s))%Z →
  ∃ s', rtc pool_step s s' ∧ AsyncS3Uploader.drained s'.
Proof.
  destruct s as [q b u out]. cbn [AsyncS3Uploader.self].
  revert b u out. induction q as [|t q IH]; intros b u out Hw.
  - destruct (pool_finish_all [] b u out) as (u' & out' & Hrun & _).
    eexists. split; [exact Hrun|]. by split.
  - destruct (pool_finish_all (t :: q) b u out) as (u' & out' & Hrun & Hw').
    destruct (IH [] u' (out' ++ [AsyncS3Uploader.call_event t])%list)
      as (s' & Hrun' & Hdone); [lia|].
    destruct (pool_finish_all q [(t, AsyncS3Uploader.outcome s3_upload_file t)]
                u' (out' ++ [AsyncS3Uploader.call_event t])%list)
      as (u'' & out'' & Hrun'' & Hw'').
    destruct (IH [] u'' out'') as (s'' & Hrun3 & Hdone3); [lia|].
    exists s''. split; [|done].
    etrans; [exact Hrun|].
    eapply rtc_l.
    { apply (AsyncS3Uploader.pool_start _ t q [] u' out'). cbn [length]. lia. }
    etrans; [exact Hrun''|exact Hrun3].
Qed.

(** C4: in every state that a run of the pool reaches, the two counters
    account for the tasks that have left the pool; once the pool is drained
    they have grown by the number of tasks together, [failed_count] by one for
    each task whose storage call raises and [uploaded_count] by one for each
    other task, and every task has had its storage call, whatever the other
    calls did.  A pool with a positive number of workers never gets stuck:
    from every state it reaches it can be run until drained.  For a new
    uploader, whose counters are 0, [uploaded_count + failed_count] is the
    number of tasks. *)
Theorem pool_tally (upload_tasks : list task) (u0 : uploader)
    (s : AsyncS3Uploader.pool) :
  rtc pool_step (AsyncS3Uploader.pool_init u0 upload_tasks) s →
  uploaded_count (AsyncS3Uploader.self s) + failed_count (AsyncS3Uploader.self s)
    + length (AsyncS3Uploader.busy s) + length (AsyncS3Uploader.queue s)
  = uploaded_count u0 + failed_count u0 + length upload_tasks ∧
  (AsyncS3Uploader.drained s →
     uploaded_count (AsyncS3Uploader.self s) + failed_count (AsyncS3Uploader.self s)
     = uploaded_count u0 + failed_count u0 + length upload_tasks ∧
     failed_count (AsyncS3Uploader.self s)
     = failed_count u0 + raising (attempt_of <$> upload_tasks) ∧
     uploaded_count (AsyncS3Uploader.self s)
     = uploaded_count u0 + returning (attempt_of <$> upload_tasks) ∧
     attempts (AsyncS3Uploader.output s) ≡ₚ attempt_of <$> upload_tasks) ∧
  ((0 < workers u0)%Z →
     ∃ s', rtc pool_step s s' ∧ AsyncS3Uploader.drained s').
Proof.
  intros Hrun.
  destruct (pool_inv_reachable _ _ _ Hrun) as (Hw & Hbusy & Hup & Hfail & Hcalls).
  pose proof (count_length (attempt_of <$> upload_tasks)) as Htot.
  pose proof (count_length
    (attempt_of <$> (AsyncS3Uploader.busy s).*1 ++ AsyncS3Uploader.queue s))
    as Hpend.
  rewrite !length_fmap, length_app, length_fmap in *.
  split_and!.
  - lia.
  - intros [Hq Hb]. rewrite Hq, Hb in *. cbn in Hcalls.
    rewrite app_nil_r in Hcalls.
    unfold count_returning, count_raising in *. cbn in Hup, Hfail.
    split_and!; [lia|lia|lia|done].
  - intros Hpos. apply pool_drains. by rewrite Hw.
Qed.

(** The workers run one after the other reach the same counters. *)
Lemma run_workers_run upload_tasks u :
  ∃ out,
    AsyncS3Uploader.run_workers s3_upload_file upload_tasks u =
      (Return (),
       mkUploader (workers u)
         (uploaded_count u + returning (attempt_of <$> upload_tasks))
         (failed_count u + raising (attempt_of <$> upload_tasks)),
       out) ∧
    attempts out = attempt_of <$> upload_tasks.
Proof.
  revert u. induction upload_tasks as [|[file_path s3_key] l IH]; intros u.
  - exists []. cbn. unfold count_returning, count_raising. cbn.
    rewrite !Nat.add_0_r. by destruct u.
  - cbn [AsyncS3Uploader.run_workers]. unfold mbind, M_bind.
    rewrite _upload_single_file_run. cbv zeta.
    rewrite critical_section_run.
    rewrite fmap_cons.
    destruct (count_cons (attempt_of (file_path, s3_key)) (attempt_of <$> l))
      as [-> ->].
    rewrite raises_outcome.
    destruct (AsyncS3Uploader.outcome s3_upload_file (file_path, s3_key)) eqn:E.
    + destruct (IH (mkUploader (workers u) (uploaded_count u)
                      (S (failed_count u)))) as (out & -> & Hout).
      eexists. split.
      * cbn [workers uploaded_count failed_count]. do 3 f_equal; lia.
      * rewrite <- Hout. reflexivity.
    + destruct (IH (mkUploader (workers u) (S (uploaded_count u))
                      (failed_count u))) as (out & -> & Hout).
      eexists. split.
      * cbn [workers uploaded_count failed_count]. do 3 f_equal; lia.
      * rewrite <- Hout. reflexivity.
Qed.

(** Whatever the order in which the workers leave, a drained pool holds the
    uploader that [run_workers] computes. *)
Lemma pool_agrees_with_run_workers upload_tasks u0 s :
  rtc pool_step (AsyncS3Uploader.pool_init u0 upload_tasks) s →
  AsyncS3Uploader.drained s →
  AsyncS3Uploader.self s =
  (AsyncS3Uploader.run_workers s3_upload_file upload_tasks u0).1.2.
Proof.
  intros Hrun Hdone.
  destruct (pool_inv_reachable _ _ _ Hrun) as (Hw & _ & Hup & Hfail & _).
  destruct Hdone as [Hq Hb]. rewrite Hq, Hb in *.
  unfold count_returning, count_raising in Hup, Hfail. cbn in Hup, Hfail.
  destruct (run_workers_run upload_tasks u0) as (out & -> & _).
  cbn [fst snd]. destruct (AsyncS3Uploader.self s) as [w up fl].
  cbn in *. f_equal; [done|..];
    unfold count_returning, count_raising; lia.
Qed.

End Pool.

Lemma two_tasks_run :
  rtc (AsyncS3Uploader.pool_step no_png)
    (AsyncS3Uploader.pool_init (AsyncS3Uploader.__init__ 2) two_tasks)
    two_tasks_drained.
Proof.
  unfold two_tasks, AsyncS3Uploader.pool_init.
  set (t1 := (Pathlib.of_str "site/a.txt", "a.txt")).
  set (t2 := (Pathlib.of_str "site/b.png", "b.png")).
  set (u0 := AsyncS3Uploader.__init__ 2).
  eapply rtc_l.
  { apply (AsyncS3Uploader.pool_start no_png t1 [t2] [] u0 []). by vm_compute. }
  eapply rtc_l.
  { apply (AsyncS3Uploader.pool_start no_png t2 []). by vm_compute. }
  eapply rtc_l.
  { apply (AsyncS3Uploader.pool_finish no_png t2
             (AsyncS3Uploader.outcome no_png t2)
             [(t1, AsyncS3Uploader.outcome no_png t1)] [] [] u0 _
             (Return false) (mkUploader 2 0 1)
             [PrintUploadFailed 1 "b.png" "AccessDenied"]).
    by vm_compute. }
  eapply rtc_l.
  { apply (AsyncS3Uploader.pool_finish no_png t1
             (AsyncS3Uploader.outcome no_png t1) [] [] [] _ _
             (Return true) (mkUploader 2 1 1)
             [PrintUploaded 1 "a.txt" "a.txt"]).
    by vm_compute. }
  vm_compute. apply rtc_refl.
Qed.

Lemma pool_tally_witness :
  uploaded_count (AsyncS3Uploader.self two_tasks_drained)
  + failed_count (AsyncS3Uploader.self two_tasks_drained) = 0 + 0 + 2 ∧
  failed_count (AsyncS3Uploader.self two_tasks_drained) = 0 + 1.
Proof.
  destruct (pool_tally no_png two_tasks (AsyncS3Uploader.__init__ 2)
              two_tasks_drained two_tasks_run) as (_ & Hdrained & _).
  destruct Hdrained as (Hsum & Hfailed & _); [by split|].
  split; [exact Hsum|exact Hfailed].
Defined.

(** ** Walking a directory *)

Lemma rglob_rel_Dir es :
  rglob_rel (Dir es) =
  map (λ e, ([e.1], e.2)) es ++
  (es ≫= λ e, map (λ x, (e.1 :: x.1, x.2)) (rglob_rel e.2)).
Proof.
  cbn [rglob_rel]. f_equal.
  induction es as [|[n c] es IH]; [done|]. cbn. by rewrite IH.
Qed.

Lemma descend_child p n rel :
  Pathlib.descend (Pathlib.child p n) rel = Pathlib.descend p (n :: rel).
Proof. unfold Pathlib.descend, Pathlib.child. cbn. by rewrite <- app_assoc. Qed.

(** [rglob] yields the relative paths of [rglob_rel] below the directory. *)
Lemma rglob_descend p t :
  rglob p t = map (λ x, (Pathlib.descend p x.1, x.2)) (rglob_rel t).
Proof.
  revert p. induction t as [| |es IH] using node_entries_ind; intros p;
    [done|done|].
  cbn [rglob rglob_rel]. rewrite map_app, map_map. f_equal.
  induction IH as [|[n c] es IHc _ IHes]; [done|].
  cbn [snd] in IHc. rewrite map_app, map_map, IHc, IHes. f_equal.
  apply map_ext. intros x. cbn. by rewrite descend_child.
Qed.

Lemma wf_node_Dir es :
  wf_node (Dir es) = true ↔
  NoDup es.*1 ∧ Forall (λ e, wf_node e.2 = true) es.
Proof.
  cbn [wf_node]. rewrite andb_true_iff, bool_decide_eq_true.
  apply and_iff_compat_l.
  induction es as [|[n c] es IH]; [by split|].
  rewrite andb_true_iff, IH, Forall_cons. done.
Qed.

Lemma find_entry (es : list (string * node)) (n : string) (e : string * node) :
  NoDup es.*1 →
  List.find (λ e, String.eqb e.1 n) es = Some e ↔ e.1 = n ∧ e ∈ es.
Proof.
  intros Hnd. induction es as [|[m c] es IH]; cbn [List.find].
  - split; [done|]. by intros [_ ?%elem_of_nil].
  - rewrite fmap_cons in Hnd. apply NoDup_cons in Hnd as [Hm Hnd]. cbn [fst] in *.
    destruct (String.eqb m n) eqn:E.
    + apply String.eqb_eq in E as ->. split.
      * intros [= <-]. split; [done|]. by left.
      * intros [He [->|Hin]%elem_of_cons]; [done|].
        exfalso. apply Hm. rewrite <- He. by apply (list_elem_of_fmap_2 fst).
    + apply String.eqb_neq in E. rewrite (IH Hnd). split.
      * intros [? ?]. split; [done|]. by right.
      * intros [He [->|Hin]%elem_of_cons]; [done|done].
Qed.

Lemma rglob_rel_nonempty t x : x ∈ rglob_rel t → x.1 ≠ [].
Proof.
  destruct t as [| |es]; [by intros ?%elem_of_nil..|].
  rewrite rglob_rel_Dir, elem_of_app, list_elem_of_fmap, list_elem_of_bind.
  intros [(e & -> & _)|(e & (y & -> & _)%list_elem_of_fmap & _)]; done.
Qed.

(** In a well-formed tree, [rglob_rel] lists the relative paths that [walk]
    resolves, with what they resolve to. *)
Lemma elem_of_rglob_rel t rel n :
  wf_node t = true →
  (rel, n) ∈ rglob_rel t ↔ rel ≠ [] ∧ walk rel t = Some n.
Proof.
  revert rel n. induction t as [| |es IH] using node_entries_ind;
    intros rel n Hwf.
  - split; [by intros ?%elem_of_nil|]. intros [? ?]. by destruct rel.
  - split; [by intros ?%elem_of_nil|]. intros [? ?]. by destruct rel.
  - apply wf_node_Dir in Hwf as [Hnd Hwfs].
    rewrite rglob_rel_Dir, elem_of_app, list_elem_of_fmap, list_elem_of_bind.
    rewrite Forall_forall in IH. rewrite Forall_forall in Hwfs.
    split.
    + intros [(e & [= -> ->] & He)|(e & (y & [= -> ->] & Hy)%list_elem_of_fmap & He)].
      * split; [done|]. cbn [walk].
        by rewrite (proj2 (find_entry es e.1 e Hnd) (conj eq_refl He)).
      * split; [done|]. cbn [walk].
        rewrite (proj2 (find_entry es e.1 e Hnd) (conj eq_refl He)). cbn.
        apply (IH e He y.1 y.2 (Hwfs e He)). by destruct y.
    + intros [Hne Hwalk]. destruct rel as [|m rel]; [done|].
      cbn [walk] in Hwalk.
      destruct (List.find _ es) as [e|] eqn:Hfind; [|done].
      apply (find_entry es m e Hnd) in Hfind as [<- He]. cbn in Hwalk.
      destruct rel as [|m' rel].
      * left. exists e. cbn in Hwalk. by simplify_eq.
      * right. exists e. split; [|done].
        apply list_elem_of_fmap. exists (m' :: rel, n). split; [done|].
        by apply (IH e He (m' :: rel) n (Hwfs e He)).
Qed.

Lemma fst_prefixed (n : string) (l : list (list string * node)) :
  (map (λ x, (n :: x.1, x.2)) l).*1 = cons n <$> l.*1.
Proof. induction l as [|x l IH]; [done|]. cbn. by f_equal. Qed.

Lemma fst_direct (es : list (string * node)) :
  (map (λ e, ([e.1], e.2)) es).*1 = (λ n, [n]) <$> es.*1.
Proof. induction es as [|e es IH]; [done|]. cbn. by f_equal. Qed.

Lemma elem_of_below (es : list (string * node)) (rel : list string) :
  rel ∈ (es ≫= λ e, map (λ x, (e.1 :: x.1, x.2)) (rglob_rel e.2)).*1 →
  ∃ e rel', e ∈ es ∧ rel = e.1 :: rel' ∧ rel' ∈ (rglob_rel e.2).*1.
Proof.
  intros (z & -> & Hz)%list_elem_of_fmap.
  apply list_elem_of_bind in Hz as (e & Hz & He).
  apply list_elem_of_fmap in Hz as (w & -> & Hw).
  exists e, w.1. split_and!; [done|done|]. by apply (list_elem_of_fmap_2 fst).
Qed.

Lemma NoDup_below (es : list (string * node)) :
  NoDup es.*1 →
  Forall (λ e, NoDup (rglob_rel e.2).*1) es →
  NoDup (es ≫= λ e, map (λ x, (e.1 :: x.1, x.2)) (rglob_rel e.2)).*1.
Proof.
  induction es as [|e es IH]; intros Hnd Hall; [constructor|].
  rewrite fmap_cons in Hnd. apply NoDup_cons in Hnd as [Hfresh Hnd].
  apply Forall_cons in Hall as [He Hall].
  rewrite bind_cons, fmap_app. apply NoDup_app. split_and!.
  - rewrite fst_prefixed. by apply (NoDup_fmap_2 (cons e.1)).
  - intros rel (z & -> & Hz)%list_elem_of_fmap Hin.
    apply list_elem_of_fmap in Hz as (w & -> & _).
    apply elem_of_below in Hin as (e' & rel' & He' & [= Hname _] & _).
    apply Hfresh. rewrite Hname. by apply (list_elem_of_fmap_2 fst).
  - by apply IH.
Qed.

(** In a well-formed tree no relative path is listed twice. *)
Lemma NoDup_rglob_rel t : wf_node t = true → NoDup (rglob_rel t).*1.
Proof.
  induction t as [| |es IH] using node_entries_ind; intros Hwf;
    [constructor|constructor|].
  apply wf_node_Dir in Hwf as [Hnd Hwfs].
  rewrite rglob_rel_Dir, fmap_app. apply NoDup_app. split_and!.
  - rewrite fst_direct.
    assert (Inj (=) (=) (λ n : string, [n])) by (by intros ?? [= ->]).
    by apply (NoDup_fmap_2 (λ n : string, [n])).
  - intros rel (z & -> & Hz)%list_elem_of_fmap Hin.
    apply list_elem_of_fmap in Hz as (e & -> & _).
    apply elem_of_below in Hin as (e' & rel' & _ & [= _ <-] & Hrel').
    apply list_elem_of_fmap in Hrel' as (w & Hw & Hin).
    by apply rglob_rel_nonempty in Hin.
  - apply NoDup_below; [done|].
    rewrite Forall_forall in IH, Hwfs. apply Forall_forall.
    intros e He. by apply IH, Hwfs.
Qed.

(** ** The directory scan *)

Lemma strip_prefix_app pre l : Pathlib.strip_prefix pre (pre ++ l) = Some l.
Proof.
  induction pre as [|x pre IH]; [done|].
  cbn. by rewrite String.eqb_refl.
Qed.

(** [relative_to] does not raise on a path built below the directory. *)
Lemma relative_to_descend dir rel :
  Pathlib.relative_to (Pathlib.descend dir rel) dir = Some (mkPath "" rel).
Proof.
  unfold Pathlib.relative_to, Pathlib.descend. cbn [root parts].
  by rewrite String.eqb_refl, strip_prefix_app.
Qed.

Lemma rglob_below dir t :
  Forall (λ e, ∃ rel, e.1 = Pathlib.descend dir rel) (rglob dir t).
Proof.
  rewrite rglob_descend. apply Forall_forall.
  intros e (x & -> & _)%list_elem_of_fmap. by exists x.1.
Qed.

Lemma entries_at_below fs dir :
  Forall (λ e, ∃ rel, e.1 = Pathlib.descend dir rel) (entries_at fs dir).
Proof.
  unfold entries_at. destruct (fs dir); [apply rglob_below|constructor].
Qed.

(** The loop of lines 193-213 never raises on what [rglob] yields; it
    appends the tasks of the kept files, the dropped files and the kept dot
    files, each in the order of the walk. *)
Lemma scan_run dir dst include_root entries T E W :
  Forall (λ e, ∃ rel, e.1 = Pathlib.descend dir rel) entries →
  AsyncS3Uploader.scan dir dst include_root entries (T, E, W) =
  Return (T ++ (task_of dir dst include_root <$> omap kept entries),
          E ++ omap dropped entries,
          W ++ filter is_dot_file (omap kept entries)).
Proof.
  intros Hbelow. revert T E W.
  induction Hbelow as [|[file_path t] entries [rel Hrel] _ IH]; intros T E W.
  - cbn. by rewrite !app_nil_r.
  - cbn [AsyncS3Uploader.scan AsyncS3Uploader.scan_entry fst snd] in *.
    change (omap kept ((file_path, t) :: entries))
      with (match kept (file_path, t) with
            | Some y => y :: omap kept entries
            | None => omap kept entries
            end).
    change (omap dropped ((file_path, t) :: entries))
      with (match dropped (file_path, t) with
            | Some y => y :: omap dropped entries
            | None => omap dropped entries
            end).
    set (k := kept (file_path, t)). set (d := dropped (file_path, t)).
    assert (k = if is_file t then
                  if decide (Pathlib.name file_path = ".DS_Store")
                  then None else Some file_path
                else None) as Hk by reflexivity.
    assert (d = if is_file t then
                  if decide (Pathlib.name file_path = ".DS_Store")
                  then Some file_path else None
                else None) as Hd by reflexivity.
    clearbody k d. subst k d.
    destruct (is_file t); [|apply IH].
    destruct (decide (Pathlib.name file_path = ".DS_Store")) as [Hn|Hn].
    + rewrite IH. by rewrite <- app_assoc.
    + assert ((if include_root then Some (Pathlib.str file_path)
               else Pathlib.str <$> Pathlib.relative_to file_path dir)
              = Some (relative_path dir include_root file_path)) as ->.
      { unfold relative_path. destruct include_root; [done|].
        by rewrite Hrel, relative_to_descend. }
      rewrite IH. rewrite fmap_cons, filter_cons.
      unfold task_of at 2.
      destruct (decide (is_dot_file file_path)) as [Hdot|Hdot];
        unfold is_dot_file in Hdot.
      * rewrite Hdot. by rewrite <- !app_assoc.
      * apply not_true_is_false in Hdot. rewrite Hdot.
        by rewrite <- !app_assoc.
Qed.

Section Directory.

Variable s3_upload_file :
  string → string → string → gmap string string → option string.
Variable fs : Path → option node.

Abbreviation run_workers := (AsyncS3Uploader.run_workers s3_upload_file).
Abbreviation _upload_single_file :=
  (AsyncS3Uploader._upload_single_file s3_upload_file).
Abbreviation _upload_concurrent :=
  (AsyncS3Uploader._upload_concurrent s3_upload_file).
Abbreviation _upload_directory :=
  (AsyncS3Uploader._upload_directory s3_upload_file fs).

Lemma _upload_concurrent_run upload_tasks u :
  _upload_concurrent upload_tasks u =
  if (workers u <=? 0)%Z then
    (Raise "max_workers must be greater than 0", u, [PrintConcurrentMode])
  else
    let '(_, u', out) := run_workers upload_tasks u in
    (Return (bool_decide (failed_count u' = 0)), u',
     [PrintConcurrentMode] ++ out ++
     [PrintSummary (uploaded_count u') (failed_count u')]).
Proof.
  unfold AsyncS3Uploader._upload_concurrent. unfold_monad. cbn.
  destruct (workers u <=? 0)%Z; [done|]. cbn.
  destruct (run_workers_run s3_upload_file upload_tasks u) as (out & -> & _).
  reflexivity.
Qed.

(** [_upload_directory] prints its header, with the count of the dropped
    files and the list of the kept dot files when there are any, and then
    runs the tasks of the kept files: nothing for no task, the worker itself
    for one, the pool for more. *)
Lemma _upload_directory_run dir dst include_root u :
  let upload_tasks :=
    task_of dir dst include_root <$> omap kept (entries_at fs dir) in
  let excluded_files := omap dropped (entries_at fs dir) in
  let warning_files := filter is_dot_file (omap kept (entries_at fs dir)) in
  let header :=
    [PrintDirectory dir dst include_root (workers u)] ++
    (if bool_decide (excluded_files ≠ [])
     then [PrintExcludedCount (length excluded_files)] else []) ++
    (if bool_decide (warning_files ≠ [])
     then [PrintWarnings warning_files] else []) ++
    [PrintTotal (length upload_tasks)] in
  _upload_directory dir dst include_root u =
  let '(r, u', out) :=
    match upload_tasks with
    | [] => (Return true, u, [PrintNothingToUpload])
    | [t] => _upload_single_file t.1 t.2 u
    | _ => _upload_concurrent upload_tasks u
    end in
  (r, u', header ++ out).
Proof.
  cbv zeta. unfold AsyncS3Uploader._upload_directory.
  fold (entries_at fs dir).
  unfold mbind at 1, M_bind at 1. unfold get at 1.
  unfold mbind at 1, M_bind at 1. unfold print at 1.
  unfold mbind at 1, M_bind at 1. unfold AsyncS3Uploader.lift at 1.
  rewrite (scan_run dir dst include_root _ [] [] [] (entries_at_below fs dir)).
  rewrite !app_nil_l.
  set (tasks := task_of dir dst include_root <$> omap kept (entries_at fs dir)).
  set (excluded := omap dropped (entries_at fs dir)).
  set (warnings := filter is_dot_file (omap kept (entries_at fs dir))).
  unfold_monad.
  destruct (bool_decide (excluded ≠ [])), (bool_decide (warnings ≠ []));
    cbn [app];
    (destruct tasks as [|[p1 k1] [|t2 rest]];
     [done
     |cbn [fst snd]; by destruct (_upload_single_file p1 k1 u) as [[? ?] ?]
     |by destruct (_upload_concurrent _ u) as [[? ?] ?]]).
Qed.

End Directory.

(** ** Every storage call is counted *)

Section Accounting.

Variable s3_upload_file :
  string → string → string → gmap string string → option string.
Variable fs : Path → option node.

Abbreviation accounted' := (accounted s3_upload_file).

Lemma accounted_silent {A} (r : result A) u out :
  attempts out = [] → accounted' u (r, u, out).
Proof.
  intros Hout. unfold accounted. cbn [fst snd]. rewrite Hout.
  unfold count_returning, count_raising. cbn. lia.
Qed.

Lemma accounted_trans {A B} u (r1 : result A) u1 out1 (r2 : result B) u2 out2 :
  accounted' u (r1, u1, out1) →
  accounted' u1 (r2, u2, out2) →
  accounted' u (r2, u2, out1 ++ out2).
Proof.
  unfold accounted. cbn [fst snd]. intros (Hw1 & Hu1 & Hf1) (Hw2 & Hu2 & Hf2).
  rewrite attempts_app.
  destruct (count_app s3_upload_file (attempts out1) (attempts out2))
    as [-> ->].
  split_and!; [congruence|lia|lia].
Qed.

Lemma accounted_bind {A B} (m : M A) (k : A → M B) u :
  accounted' u (m u) →
  (∀ a u1, accounted' u1 (k a u1)) →
  accounted' u ((m ≫= k) u).
Proof.
  intros Hm Hk. unfold mbind, M_bind.
  destruct (m u) as [[[a|err] u1] out1]; [|done].
  specialize (Hk a u1). destruct (k a u1) as [[r2 u2] out2].
  by eapply accounted_trans.
Qed.

Lemma accounted_try_except {A} (m : M A) (h : string → M A) u :
  accounted' u (m u) →
  (∀ e u1, accounted' u1 (h e u1)) →
  accounted' u (try_except m h u).
Proof.
  intros Hm Hh. unfold try_except.
  destruct (m u) as [[[a|err] u1] out1]; [done|].
  specialize (Hh err u1). destruct (h err u1) as [[r2 u2] out2].
  by eapply accounted_trans.
Qed.

Lemma accounted_try_finally {A} (m : M A) (f : M unit) u :
  accounted' u (m u) →
  (∀ u1, accounted' u1 (f u1)) →
  accounted' u (try_finally m f u).
Proof.
  intros Hm Hf. unfold try_finally.
  destruct (m u) as [[r u1] out1].
  specialize (Hf u1). destruct (f u1) as [[r2 u2] out2].
  unfold accounted in *. cbn [fst snd] in *. rewrite attempts_app.
  destruct (count_app s3_upload_file (attempts out1) (attempts out2))
    as [-> ->].
  destruct Hm as (?&?&?), Hf as (?&?&?). split_and!; [congruence|lia|lia].
Qed.

Lemma accounted_print {A} (e : event) (k : M A) u :
  is_call e = false →
  accounted' u (k u) → accounted' u ((print e;; k) u).
Proof.
  intros He Hk. unfold mbind, M_bind, print.
  destruct (k u) as [[r u1] out1].
  apply (accounted_trans u (Return ()) u [e]); [|done].
  apply accounted_silent. by destruct e.
Qed.

Lemma accounted_mret {A} (a : A) u : accounted' u ((mret a : M A) u).
Proof. by apply accounted_silent. Qed.

Lemma accounted_upload_single_file file_path s3_key u :
  accounted' u
    (AsyncS3Uploader._upload_single_file s3_upload_file file_path s3_key u).
Proof.
  rewrite _upload_single_file_run. cbv zeta. rewrite critical_section_run.
  pose proof (raises_outcome s3_upload_file (file_path, s3_key)) as Hr.
  pose proof (count_cons s3_upload_file (attempt_of (file_path, s3_key)) [])
    as [Hret Hrai].
  unfold accounted.
  destruct (AsyncS3Uploader.outcome s3_upload_file (file_path, s3_key));
    cbn [fst snd]; rewrite Hr in Hret, Hrai;
    change (attempts (AsyncS3Uploader.call_event (file_path, s3_key) :: _))
      with [attempt_of (file_path, s3_key)];
    rewrite Hret, Hrai; unfold count_returning, count_raising; cbn;
    split_and!; lia.
Qed.

Lemma accounted_run_workers upload_tasks u :
  accounted' u (AsyncS3Uploader.run_workers s3_upload_file upload_tasks u).
Proof.
  destruct (run_workers_run s3_upload_file upload_tasks u) as (out & -> & Hout).
  unfold accounted. cbn [fst snd]. by rewrite Hout.
Qed.

Lemma accounted_upload_concurrent upload_tasks u :
  accounted' u
    (AsyncS3Uploader._upload_concurrent s3_upload_file upload_tasks u).
Proof.
  unfold AsyncS3Uploader._upload_concurrent.
  apply accounted_print; [done|].
  apply accounted_bind; [by apply accounted_silent|]. intros w u1.
  apply accounted_bind.
  { destruct (w <=? 0)%Z; by apply accounted_silent. }
  intros _ u2. apply accounted_bind; [apply accounted_run_workers|].
  intros _ u3. apply accounted_bind; [by apply accounted_silent|].
  intros up u4. apply accounted_bind; [by apply accounted_silent|].
  intros fl u5. apply accounted_print; [done|]. apply accounted_mret.
Qed.

Lemma accounted_upload_directory dir dst include_root u :
  accounted' u
    (AsyncS3Uploader._upload_directory s3_upload_file fs dir dst include_root u).
Proof.
  rewrite _upload_directory_run. cbv zeta.
  set (tasks := task_of dir dst include_root <$> _).
  assert (accounted' u
    (match tasks with
     | [] => (Return true, u, [PrintNothingToUpload])
     | [t] => AsyncS3Uploader._upload_single_file s3_upload_file t.1 t.2 u
     | _ => AsyncS3Uploader._upload_concurrent s3_upload_file tasks u
     end)) as Hrun.
  { destruct tasks as [|t [|t' rest]].
    - by apply accounted_silent.
    - apply accounted_upload_single_file.
    - apply accounted_upload_concurrent. }
  destruct (match tasks with [] => _ | _ => _ end) as [[r u'] out].
  eapply (accounted_trans u (Return ()) u); [|exact Hrun].
  apply accounted_silent.
  by destruct (bool_decide _), (bool_decide _).
Qed.

Lemma accounted_upload_single_file_sync file_path dst u :
  accounted' u
    (AsyncS3Uploader._upload_single_file_sync s3_upload_file file_path dst u).
Proof.
  unfold AsyncS3Uploader._upload_single_file_sync.
  apply accounted_try_except.
  - case_decide.
    + apply accounted_print; [done|]. apply accounted_mret.
    + apply accounted_bind.
      { destruct (PyStr.startswith _ _); by apply accounted_silent. }
      intros _ u1. apply accounted_print; [done|].
      apply accounted_upload_single_file.
  - intros e u1. apply accounted_print; [done|]. apply accounted_mret.
Qed.

(** Whatever the source, the mode and the uploader, [upload] leaves
    [workers] alone and each counter grows by the number of storage calls of
    this run that returned, respectively raised: uploaded + failed grows by
    the number of calls made. *)
Theorem upload_accounted (src_path dst_path : string) (include_root : bool)
    (u : uploader) :
  accounted' u
    (AsyncS3Uploader.upload s3_upload_file fs src_path dst_path include_root u).
Proof.
  unfold AsyncS3Uploader.upload.
  destruct (fs (Pathlib.of_str src_path)) as [t|].
  - apply accounted_try_finally; [|intros u1; by apply accounted_silent].
    apply accounted_try_except.
    + destruct (is_file t); [apply accounted_upload_single_file_sync|].
      destruct (is_dir t); [apply accounted_upload_directory|].
      apply accounted_print; [done|]. apply accounted_mret.
    + intros e u1. apply accounted_print; [done|]. apply accounted_mret.
  - apply accounted_print; [done|]. apply accounted_mret.
Qed.

End Accounting.

(** ** The result of [upload] *)

Section Result.

Variable s3_upload_file :
  string → string → string → gmap string string → option string.
Variable fs : Path → option node.

Abbreviation method_upload := (AsyncS3Uploader.upload s3_upload_file fs).
Abbreviation worker := (AsyncS3Uploader._upload_single_file s3_upload_file).

(** The worker catches what the storage call raises: it makes one call,
    returns whether the call returned, and moves exactly one counter by
    one. *)
Theorem worker_outcome (file_path : Path) (s3_key : string) (u : uploader) :
  let '(r, u', out) := worker file_path s3_key u in
  let failed := raises s3_upload_file (attempt_of (file_path, s3_key)) in
  r = Return (negb failed) ∧
  attempts out = [attempt_of (file_path, s3_key)] ∧
  workers u' = workers u ∧
  uploaded_count u' = (if failed then 0 else 1) + uploaded_count u ∧
  failed_count u' = (if failed then 1 else 0) + failed_count u.
Proof.
  rewrite _upload_single_file_run. cbv zeta. rewrite critical_section_run.
  rewrite raises_outcome.
  by destruct (AsyncS3Uploader.outcome s3_upload_file (file_path, s3_key)).
Qed.

(** The [ExtraArgs] of a storage call are the headers of the file, no more
    and no less: the three copies of lines 82-87 cover every key that
    [get_file_headers] can set. *)
Theorem extra_args_are_headers (file_path : Path) :
  AsyncS3Uploader.extra_args_of file_path =
  get_file_headers (Pathlib.str file_path).
Proof.
  apply map_eq. intros k. unfold AsyncS3Uploader.extra_args_of.
  set (headers := get_file_headers (Pathlib.str file_path)).
  assert (∀ k (m : gmap string string) k',
    copy_key k headers m !! k' =
    if decide (k = k') then
      match headers !! k with Some v => Some v | None => m !! k' end
    else m !! k') as Hcopy.
  { intros k1 m k'. unfold copy_key.
    destruct (headers !! k1) eqn:E; case_decide; simplify_map_eq; done. }
  rewrite !Hcopy, lookup_empty.
  destruct (headers !! k) as [v|] eqn:Hk.
  - destruct (get_file_headers_dom (Pathlib.str file_path) k) as [->|[->| ->]];
      [by eexists| | |]; fold headers; rewrite Hk;
      repeat (case_decide; try done).
  - repeat case_decide; subst; by rewrite ?Hk.
Qed.

Lemma try_except_returns {A} (m : M A) (h : string → M A) u :
  (∀ e u1, returns (h e u1)) →
  returns (try_except m h u).
Proof.
  intros Hh. unfold try_except, returns.
  destruct (m u) as [[[a|err] u1] out1]; [by eexists|].
  destruct (Hh err u1) as [a Ha].
  destruct (h err u1) as [[r u2] out2]. by exists a.
Qed.

(** [upload] catches every exception: it always returns a boolean. *)
Theorem upload_never_raises (src_path dst_path : string) (include_root : bool)
    (u : uploader) :
  returns (method_upload src_path dst_path include_root u).
Proof.
  unfold AsyncS3Uploader.upload.
  destruct (fs (Pathlib.of_str src_path)) as [t|]; [|by exists false].
  unfold try_finally.
  pose proof (try_except_returns
    (if is_file t
     then AsyncS3Uploader._upload_single_file_sync s3_upload_file
            (Pathlib.of_str src_path) (PyStr.rstrip "/"%char dst_path)
     else if is_dir t
     then AsyncS3Uploader._upload_directory s3_upload_file fs
            (Pathlib.of_str src_path) (PyStr.rstrip "/"%char dst_path)
            include_root
     else print (PrintUnsupported (Pathlib.of_str src_path));; mret false)
    (λ e, print (PrintError e);; mret false) u) as Hret.
  destruct (try_except _ _ u) as [[r u1] out1].
  cbn. apply Hret. intros e u1'. by exists false.
Qed.

End Result.

(** ** The branches of [upload] *)

Section Branches.

Variable s3_upload_file :
  string → string → string → gmap string string → option string.
Variable fs : Path → option node.

Abbreviation method_upload := (AsyncS3Uploader.upload s3_upload_file fs).
Abbreviation worker := (AsyncS3Uploader._upload_single_file s3_upload_file).
Abbreviation _upload_directory :=
  (AsyncS3Uploader._upload_directory s3_upload_file fs).

(** A single file that is not named '.DS_Store' is uploaded by one worker,
    after a warning when its name starts with a dot.  Its key is its name
    when the destination is empty or made of slashes only, and otherwise the
    destination without its trailing and leading slashes: the file name is
    never appended to a destination. *)
Theorem upload_single_file_run (src_path dst_path : string)
    (include_root : bool) (u : uploader) :
  fs (Pathlib.of_str src_path) = Some File →
  Pathlib.name (Pathlib.of_str src_path) ≠ ".DS_Store" →
  let p := Pathlib.of_str src_path in
  let dst := PyStr.rstrip "/"%char dst_path in
  let key := if decide (dst = "") then PyStr.lstrip "/"%char (Pathlib.name p)
             else PyStr.lstrip "/"%char dst in
  method_upload src_path dst_path include_root u =
  let '(r, u', out) := worker p key u in
  (r, u',
   (if PyStr.startswith "."%char (Pathlib.name p)
    then [PrintDotWarning p] else []) ++
   [PrintUploading p key] ++ out ++ [PrintElapsed]).
Proof.
  intros Hfs Hname. cbv zeta.
  unfold AsyncS3Uploader.upload. rewrite Hfs. cbn [is_file].
  unfold AsyncS3Uploader._upload_single_file_sync.
  rewrite decide_False by done. rewrite single_file_key_rstrip.
  set (key := if decide (PyStr.rstrip "/"%char dst_path = "") then _ else _).
  unfold_monad.
  destruct (PyStr.startswith "."%char _); cbn iota beta;
    rewrite !_upload_single_file_run; cbv zeta;
    rewrite critical_section_run;
    by destruct (AsyncS3Uploader.outcome s3_upload_file _).
Qed.

(** A single file named '.DS_Store' is refused: the result is false, no
    storage call is made and the counters stay as they were. *)
Theorem upload_excluded_file (src_path dst_path : string)
    (include_root : bool) (u : uploader) :
  fs (Pathlib.of_str src_path) = Some File →
  Pathlib.name (Pathlib.of_str src_path) = ".DS_Store" →
  method_upload src_path dst_path include_root u =
  (Return false, u, [PrintExcluded (Pathlib.of_str src_path); PrintElapsed]).
Proof.
  intros Hfs Hname. unfold AsyncS3Uploader.upload. rewrite Hfs. cbn [is_file].
  unfold AsyncS3Uploader._upload_single_file_sync.
  rewrite decide_True by done. reflexivity.
Qed.

(** For a directory, [upload] is [_upload_directory] on the destination
    without its trailing slashes; an exception of the scheduler is printed
    and turned into the result false; the elapsed time is printed last. *)
Lemma upload_directory_run src_path dst_path include_root u t :
  fs (Pathlib.of_str src_path) = Some t →
  is_dir t = true →
  method_upload src_path dst_path include_root u =
  let '(r, u', out) :=
    _upload_directory (Pathlib.of_str src_path)
      (PyStr.rstrip "/"%char dst_path) include_root u in
  match r with
  | Return b => (Return b, u', out ++ [PrintElapsed])
  | Raise e => (Return false, u', out ++ [PrintError e; PrintElapsed])
  end.
Proof.
  intros Hfs Hdir. unfold AsyncS3Uploader.upload. rewrite Hfs.
  destruct t; try done. cbn [is_file is_dir].
  unfold try_finally, try_except.
  destruct (_upload_directory _ _ _ u) as [[[b|e] u'] out]; [done|].
  unfold_monad. cbn. by rewrite <- app_assoc.
Qed.

End Branches.

(** ** Uploading a directory *)

Section DirectoryUpload.

Variable s3_upload_file :
  string → string → string → gmap string string → option string.
Variable fs : Path → option node.

Abbreviation method_upload := (AsyncS3Uploader.upload s3_upload_file fs).
Abbreviation worker := (AsyncS3Uploader._upload_single_file s3_upload_file).
Abbreviation run_workers := (AsyncS3Uploader.run_workers s3_upload_file).

Lemma entries_at_Some dir t : fs dir = Some t → entries_at fs dir = rglob dir t.
Proof. unfold entries_at. by intros ->. Qed.

Lemma attempts_header dir dst include_root w :
  attempts (directory_header fs dir dst include_root w) = [].
Proof.
  unfold directory_header. cbv zeta.
  by destruct (bool_decide _), (bool_decide _).
Qed.

(** The three ways a directory upload goes, by the number of kept files. *)
Lemma upload_directory_cases src_path dst_path include_root u t :
  fs (Pathlib.of_str src_path) = Some t →
  is_dir t = true →
  let p := Pathlib.of_str src_path in
  let dst := PyStr.rstrip "/"%char dst_path in
  let upload_tasks := task_of p dst include_root <$> eligible p t in
  let header := directory_header fs p dst include_root (workers u) in
  method_upload src_path dst_path include_root u =
  match upload_tasks with
  | [] => (Return true, u, header ++ [PrintNothingToUpload; PrintElapsed])
  | [t1] =>
      let '(r, u', out) := worker t1.1 t1.2 u in
      (r, u', header ++ out ++ [PrintElapsed])
  | _ =>
      if (workers u <=? 0)%Z then
        (Return false, u,
         header ++ [PrintConcurrentMode;
                    PrintError "max_workers must be greater than 0";
                    PrintElapsed])
      else
        let '(_, u', out) := run_workers upload_tasks u in
        (Return (bool_decide (failed_count u' = 0)), u',
         header ++ [PrintConcurrentMode] ++ out ++
         [PrintSummary (uploaded_count u') (failed_count u'); PrintElapsed])
  end.
Proof.
  intros Hfs Hdir. cbv zeta.
  rewrite (upload_directory_run _ _ _ _ _ _ t Hfs Hdir).
  rewrite _upload_directory_run. cbv zeta.
  unfold directory_header, eligible. rewrite (entries_at_Some _ _ Hfs).
  set (files := omap kept (rglob (Pathlib.of_str src_path) t)).
  rewrite length_fmap.
  set (header := [PrintDirectory _ _ _ _] ++ _).
  destruct (task_of _ _ include_root <$> files) as [|[p1 k1] [|t2 rest]] eqn:E.
  - by rewrite <- app_assoc.
  - cbn [fst snd]. rewrite _upload_single_file_run. cbv zeta.
    rewrite critical_section_run.
    destruct (AsyncS3Uploader.outcome s3_upload_file (p1, k1));
      by rewrite <- !app_assoc.
  - rewrite _upload_concurrent_run.
    destruct (workers u <=? 0)%Z; [by rewrite <- !app_assoc|].
    destruct (run_workers _ u) as [[r' u'] out].
    by rewrite <- !app_assoc.
Qed.

End DirectoryUpload.
